(** * Start-up schema migration and admin seeding of the SuperLuca backend

    A shallow embedding of [src/backend/app/main.py]: the [User] table
    model, [_hash_secret], [ensure_user_table_schema], [init_db] and
    [seed_admin_user], together with the small part of the database
    engine those functions talk to (table catalogue, column list, rows,
    the statements the ORM emits).  The theorems state the bootstrap
    properties of the specification against these definitions, then
    further properties of the same functions and of the test-plan
    generator of [src/Apps/test-plan/src/main.py]. *)

From Stdlib Require Import ZArith Ascii String DecimalString DecimalNat.
From stdpp Require Import base decidable option list strings gmap.

Local Open Scope Z_scope.

(** ** [hashlib.sha256]

    [_hash_secret] is [hashlib.sha256(...).hexdigest()].  The digest is
    written out here (FIPS 180-4) on 32-bit words held in [Z], so that
    the embedding of [_hash_secret] computes actual digests. *)

Module SHA256.

Definition w32 (x : Z) : Z := x mod 2 ^ 32.

Definition add32 (x y : Z) : Z := w32 (x + y).

Definition rotr (n x : Z) : Z :=
  Z.lor (Z.shiftr x n) (w32 (Z.shiftl x (32 - n))).

Definition not32 (x : Z) : Z := Z.lxor x 4294967295.

Definition Ch (x y z : Z) : Z := Z.lxor (Z.land x y) (Z.land (not32 x) z).

Definition Maj (x y z : Z) : Z :=
  Z.lxor (Z.lxor (Z.land x y) (Z.land x z)) (Z.land y z).

Definition Sigma0 (x : Z) : Z := Z.lxor (Z.lxor (rotr 2 x) (rotr 13 x)) (rotr 22 x).
Definition Sigma1 (x : Z) : Z := Z.lxor (Z.lxor (rotr 6 x) (rotr 11 x)) (rotr 25 x).
Definition sigma0 (x : Z) : Z := Z.lxor (Z.lxor (rotr 7 x) (rotr 18 x)) (Z.shiftr x 3).
Definition sigma1 (x : Z) : Z := Z.lxor (Z.lxor (rotr 17 x) (rotr 19 x)) (Z.shiftr x 10).

(** The round constants are not tabulated but computed as the standard
    defines them: the first 32 bits of the fractional parts of the cube
    roots (for [K]) and square roots (for [H0]) of the first primes. *)
Definition is_prime (p : Z) : bool :=
  forallb (λ q : nat, negb (p mod Z.of_nat q =? 0)) (seq 2 (Z.to_nat p - 2)).

Definition primes : list Z := filter (λ p, is_prime p = true) (Z.of_nat <$> seq 2 310).

(** Integer cube root, one bit at a time from the top. *)
Definition icbrt (n : Z) : Z :=
  foldl (λ r (b : nat),
           let c := r + 2 ^ Z.of_nat (40 - b) in
           if c * c * c <=? n then c else r)
        0 (seq 0 41).

Definition frac_cbrt32 (p : Z) : Z := w32 (icbrt (p * 2 ^ 96)).
Definition frac_sqrt32 (p : Z) : Z := w32 (Z.sqrt (p * 2 ^ 64)).

Definition K : list Z := Eval vm_compute in frac_cbrt32 <$> primes.

(** The eight working words [a .. h]. *)
Record words := Words { wa : Z; wb : Z; wc : Z; wd : Z; we : Z; wf : Z; wg : Z; wh : Z }.

Definition H0 : words :=
  match frac_sqrt32 <$> take 8 primes with
  | [a; b; c; d; e; f; g; h] => Words a b c d e f g h
  | _ => Words 0 0 0 0 0 0 0 0
  end.

(** Message padding: one [0x80] byte, zeros up to 56 mod 64, then the
    bit length on eight bytes, most significant first. *)
Definition be_bytes (n : nat) (x : Z) : list Z :=
  (λ i : nat, Z.shiftr x (8 * Z.of_nat (n - 1 - i)) mod 256) <$> seq 0 n.

Definition pad (msg : list Z) : list Z :=
  let len := Z.of_nat (length msg) in
  let zeros := Z.to_nat ((55 - len) mod 64) in
  msg ++ [128] ++ replicate zeros 0 ++ be_bytes 8 (8 * len).

Fixpoint be_words (bs : list Z) : list Z :=
  match bs with
  | b0 :: b1 :: b2 :: b3 :: rest =>
      (Z.shiftl b0 24 + Z.shiftl b1 16 + Z.shiftl b2 8 + b3) :: be_words rest
  | _ => []
  end.

Fixpoint blocks (fuel : nat) (ws : list Z) : list (list Z) :=
  match fuel, ws with
  | S fuel', _ :: _ => take 16 ws :: blocks fuel' (drop 16 ws)
  | _, _ => []
  end.

(** Message schedule: sixteen words of the block extended to sixty-four. *)
Fixpoint schedule (n : nat) (w : list Z) : list Z :=
  match n with
  | O => w
  | S n' =>
      let t := length w in
      let at_ i := nth (t - i) w 0 in
      schedule n'
        (w ++ [add32 (add32 (sigma1 (at_ 2%nat)) (at_ 7%nat))
                     (add32 (sigma0 (at_ 15%nat)) (at_ 16%nat))])
  end.

Definition round (s : words) (kw : Z * Z) : words :=
  let t1 := add32 (add32 (add32 (wh s) (Sigma1 (we s)))
                         (add32 (Ch (we s) (wf s) (wg s)) kw.1)) kw.2 in
  let t2 := add32 (Sigma0 (wa s)) (Maj (wa s) (wb s) (wc s)) in
  Words (add32 t1 t2) (wa s) (wb s) (wc s) (add32 (wd s) t1) (we s) (wf s) (wg s).

Definition compress (h : words) (block : list Z) : words :=
  let s := foldl round h (zip K (schedule 48 block)) in
  Words (add32 (wa h) (wa s)) (add32 (wb h) (wb s)) (add32 (wc h) (wc s))
        (add32 (wd h) (wd s)) (add32 (we h) (we s)) (add32 (wf h) (wf s))
        (add32 (wg h) (wg s)) (add32 (wh h) (wh s)).

Definition digest (msg : list Z) : words :=
  let ws := be_words (pad msg) in
  foldl compress H0 (blocks (length ws) ws).

Definition hex_digit (x : Z) : ascii :=
  ascii_of_nat (Z.to_nat (if x <? 10 then 48 + x else 87 + x)).

Fixpoint hex_string (ds : list Z) : string :=
  match ds with
  | [] => EmptyString
  | d :: ds' => String (hex_digit d) (hex_string ds')
  end.

Definition nibbles (x : Z) : list Z :=
  (λ i : nat, Z.shiftr x (4 * Z.of_nat (7 - i)) mod 16) <$> seq 0 8.

Definition hexdigest (msg : list Z) : string :=
  let h := digest msg in
  hex_string (nibbles (wa h) ++ nibbles (wb h) ++ nibbles (wc h) ++ nibbles (wd h)
           ++ nibbles (we h) ++ nibbles (wf h) ++ nibbles (wg h) ++ nibbles (wh h)).

End SHA256.

(** [str.encode("utf-8")]: configuration values are taken as well-formed
    text and a string is held as the sequence of its UTF-8 bytes, so the
    encoding reads the bytes off. *)
Fixpoint encode_utf8 (s : string) : list Z :=
  match s with
  | EmptyString => []
  | String c s' => Z.of_nat (nat_of_ascii c) :: encode_utf8 s'
  end.

(** [_hash_secret(value)] = [hashlib.sha256(value.encode("utf-8")).hexdigest()]. *)
Definition _hash_secret (value : string) : string :=
  SHA256.hexdigest (encode_utf8 value).

Local Open Scope string_scope.
Local Open Scope list_scope.

(** ** Process environment ([os.environ]) *)

Definition getenv (environ : gmap string string) (key default_ : string) : string :=
  default default_ (environ !! key).

(** Python truthiness of a [str]: the empty string is false. *)
Definition truthy (s : string) : bool :=
  match s with EmptyString => false | String _ _ => true end.

(** Module-level [DATABASE_URL = os.getenv("DATABASE_URL", "sqlite:///./app.db")]. *)
Definition DATABASE_URL (environ : gmap string string) : string :=
  getenv environ "DATABASE_URL" "sqlite:///./app.db".

(** [DATABASE_URL.startswith("sqlite")]. *)
Definition is_sqlite (environ : gmap string string) : bool :=
  String.prefix "sqlite" (DATABASE_URL environ).

(** ** The store: values, rows, tables *)

Inductive value :=
| VNull
| VInt (n : Z)
| VText (s : string)
| VBool (b : bool)
| VDateTime (t : Z).

#[global] Instance value_eq_dec : EqDecision value.
Proof. solve_decision. Defined.

(** A stored row maps column names to values; a column the row does not
    hold reads as NULL (SQLite does not rewrite rows on ADD COLUMN). *)
Definition row_get (r : gmap string value) (c : string) : value :=
  default VNull (r !! c).

(** One line of [PRAGMA table_info]: name, declared type, NOT NULL flag. *)
Record column := Column { col_name : string; col_type : string; col_notnull : bool }.

#[global] Instance column_eq_dec : EqDecision column.
Proof. solve_decision. Defined.

(** Rows are kept in rowid order; the position of a row in the list is
    the identity under which the ORM session tracks it. *)
Record table := Table { tbl_columns : list column; tbl_rows : list (gmap string value) }.

(** The database behind [engine]: whether a connection can be opened,
    and the [user] table when the catalogue has one. *)
Record db := Db { db_reachable : bool; db_user : option table }.

Definition column_names (t : table) : list string := col_name <$> tbl_columns t.

(** ** The [User] model (lines 33-44) *)

Definition User_columns : list column :=
  [ Column "id" "INTEGER" true;
    Column "username" "VARCHAR" true;
    Column "email" "VARCHAR" true;
    Column "password_hash" "VARCHAR" true;
    Column "recovery_key_hash" "VARCHAR" false;
    Column "role" "VARCHAR" true;
    Column "is_active" "BOOLEAN" true;
    Column "created_at" "DATETIME" true;
    Column "deleted_at" "DATETIME" false ].

Definition User_column_names : list string := col_name <$> User_columns.

(** [User(username=..., email=..., password_hash=..., recovery_key_hash=...,
    role=..., is_active=True)]: [id] and [deleted_at] take their default
    [None], [created_at] the value of [datetime.utcnow()]. *)
Definition User_new (username email password_hash : string)
    (recovery_key_hash : option string) (role : string) (is_active : bool)
    (utcnow : Z) : gmap string value :=
  <["id" := VNull]>
  (<["username" := VText username]>
  (<["email" := VText email]>
  (<["password_hash" := VText password_hash]>
  (<["recovery_key_hash" := from_option VText VNull recovery_key_hash]>
  (<["role" := VText role]>
  (<["is_active" := VBool is_active]>
  (<["created_at" := VDateTime utcnow]>
  (<["deleted_at" := VNull]> ∅)))))))).

(** ** Statements, exceptions and the database monad *)

Inductive stmt :=
| CreateTable (cols : list column)
| SelectSqliteMaster
| PragmaTableInfo
| AlterAddColumn (c : column)
| SelectUser (username : string)
| InsertUser (r : gmap string value)
| UpdateUser (pos : nat) (sets : list (string * value)).

Inductive exn :=
| OperationalError (msg : string)
| IntegrityError (msg : string).

Inductive outcome (A : Type) :=
| Return (a : A)
| Raise (e : exn).
Arguments Return {A} a.
Arguments Raise {A} e.

(** What a computation leaves behind: its outcome, the database as
    committed (a failed statement changes nothing), and the statements
    it sent, oldest first. *)
Record run (A : Type) := Run { outcome_of : outcome A; db_of : db; issued : list stmt }.
Arguments Run {A} _ _ _.
Arguments outcome_of {A} _.
Arguments db_of {A} _.
Arguments issued {A} _.

Definition M (A : Type) : Type := db → run A.

#[global] Instance M_ret : MRet M := λ A a d, Run (Return a) d [].

#[global] Instance M_bind : MBind M := λ A B f m d,
  match m d with
  | Run (Return a) d1 l1 =>
      match f a d1 with
      | Run o d2 l2 => Run o d2 (l1 ++ l2)
      end
  | Run (Raise e) d1 l1 => Run (Raise e) d1 l1
  end.

Definition unable_to_open : exn := OperationalError "unable to open database file".
Definition no_such_table : exn := OperationalError "no such table: user".
Definition no_such_column : exn := OperationalError "no such column".
Definition duplicate_column : exn := OperationalError "duplicate column name".
Definition unique_failed : exn := IntegrityError "UNIQUE constraint failed: user.username".

(** Send one statement.  Without a connection nothing is sent and the
    driver raises. *)
Definition execute {A} (s : stmt) (f : db → outcome A * db) : M A := λ d,
  if db_reachable d then Run (f d).1 (f d).2 [s]
  else Run (Raise unable_to_open) d [].

(** Statements on the [user] table. *)
Definition on_user {A} (f : table → outcome A * table) (d : db) : outcome A * db :=
  match db_user d with
  | None => (Raise no_such_table, d)
  | Some t => ((f t).1, Db (db_reachable d) (Some (f t).2))
  end.

(** [SQLModel.metadata.create_all(engine)]: CREATE TABLE with the full
    model when the catalogue has no [user] table, nothing otherwise. *)
Definition create_all : M unit := λ d,
  if db_reachable d then
    match db_user d with
    | Some _ => Run (Return ()) d []
    | None => Run (Return ()) (Db (db_reachable d) (Some (Table User_columns [])))
                  [CreateTable User_columns]
    end
  else Run (Raise unable_to_open) d [].

(** [SELECT name FROM sqlite_master WHERE type='table' AND name='user'],
    read with [.scalar()]. *)
Definition select_sqlite_master : M (option string) :=
  execute SelectSqliteMaster
    (λ d, (Return (match db_user d with Some _ => Some "user" | None => None end), d)).

(** [PRAGMA table_info('user')]: one tuple [(cid, name, type, notnull)]
    per column, none when the table does not exist. *)
Definition pragma_table_info : M (list (nat * string * string * bool)) :=
  execute PragmaTableInfo
    (λ d, (Return (match db_user d with
                   | Some t => imap (λ i c, (i, col_name c, col_type c, col_notnull c))
                                    (tbl_columns t)
                   | None => []
                   end), d)).

(** [ALTER TABLE "user" ADD COLUMN ...]: the column is appended, stored
    rows are left as they are. *)
Definition alter_add_column (c : column) : M unit :=
  execute (AlterAddColumn c)
    (on_user (λ t,
       if bool_decide (col_name c ∈ column_names t) then (Raise duplicate_column, t)
       else (Return (), Table (tbl_columns t ++ [c]) (tbl_rows t)))).

Definition has_username (username : value) (r : gmap string value) : Prop :=
  row_get r "username" = username.

#[global] Instance has_username_dec u r : Decision (has_username u r).
Proof. unfold has_username. apply _. Defined.

(** [select(User).where(User.username == username)] read with [.first()]:
    the statement names every column of the model, so it fails on a table
    that lacks one; otherwise the first matching row, with its position. *)
Definition select_user_first (username : string)
  : M (option (nat * gmap string value)) :=
  execute (SelectUser username)
    (on_user (λ t,
       if bool_decide (User_column_names ⊆ column_names t)
       then (Return (list_find (has_username (VText username)) (tbl_rows t)), t)
       else (Raise no_such_column, t))).

Definition row_id (r : gmap string value) : Z :=
  match r !! "id" with Some (VInt n) => n | _ => 0 end.

(** The rowid SQLite gives the next inserted row. *)
Definition next_id (rows : list (gmap string value)) : Z :=
  1 + foldr Z.max 0 (row_id <$> rows).

(** [INSERT INTO user (...) VALUES (...)]: rejected when the unique index
    on [username] already holds the name; otherwise the row is appended
    under a fresh [id]. *)
Definition insert_user (r : gmap string value) : M unit :=
  execute (InsertUser r)
    (on_user (λ t,
       if bool_decide (User_column_names ⊆ column_names t) then
         if bool_decide (Exists (has_username (row_get r "username")) (tbl_rows t))
         then (Raise unique_failed, t)
         else (Return (),
               Table (tbl_columns t) (tbl_rows t ++ [<["id" := VInt (next_id (tbl_rows t))]> r]))
       else (Raise no_such_column, t))).

Definition assign (r : gmap string value) (sets : list (string * value))
  : gmap string value :=
  foldl (λ acc cv, <[cv.1 := cv.2]> acc) r sets.

(** [UPDATE user SET c1=?, ... WHERE user.id = ?] for the row the session
    loaded at position [pos]. *)
Definition update_user (pos : nat) (sets : list (string * value)) : M unit :=
  execute (UpdateUser pos sets)
    (on_user (λ t,
       (Return (), Table (tbl_columns t) (alter (λ r, assign r sets) pos (tbl_rows t))))).

(** [connection.commit()]: statements take effect as they are executed,
    so the commit has nothing left to do. *)
Definition commit : M unit := mret ().

(** ** The application (lines 53-146) *)

(** Lines 71-83, the body of [with engine.connect() as connection]:
    look the table up in [sqlite_master], return when it is not there,
    otherwise read the column names and add [deleted_at] when missing. *)
Definition migrate_user_table : M unit :=
  table_exists ← select_sqlite_master;
  if negb (from_option truthy false table_exists) then mret ()
  else
    info ← pragma_table_info;
    let existing_columns : gset string := list_to_set ((λ row, row.1.1.2) <$> info) in
    (if bool_decide ("deleted_at" ∉ existing_columns)
     then alter_add_column (Column "deleted_at" "DATETIME" false)
     else mret ());;
    commit.

Definition ensure_user_table_schema (environ : gmap string string) : M unit :=
  create_all;;
  if negb (is_sqlite environ) then mret ()
  else migrate_user_table.

Definition init_db (environ : gmap string string) : M unit :=
  ensure_user_table_schema environ.

(** The configuration [seed_admin_user] reads (lines 110-117). *)
Definition admin_username (environ : gmap string string) : string :=
  getenv environ "ADMIN_USERNAME" "admin".
Definition admin_email (environ : gmap string string) : string :=
  getenv environ "ADMIN_EMAIL" "admin@example.com".
Definition admin_password (environ : gmap string string) : string :=
  getenv environ "ADMIN_PASSWORD" "ChangeM3!".
Definition admin_role (environ : gmap string string) : string :=
  getenv environ "ADMIN_ROLE" "admin".
Definition admin_recovery_key (environ : gmap string string) : option string :=
  environ !! "ADMIN_RECOVERY_KEY".

(** [_hash_secret(recovery_key) if recovery_key else None]. *)
Definition admin_recovery_key_hash (environ : gmap string string) : option string :=
  match admin_recovery_key environ with
  | Some recovery_key => if truthy recovery_key then Some (_hash_secret recovery_key) else None
  | None => None
  end.

(** Lines 133-142: the attributes the three comparisons assign, in
    order; [updated] is true exactly when this list is not empty. *)
Definition drifted (environ : gmap string string) (admin : gmap string value)
  : list (string * value) :=
  let email := admin_email environ in
  let role := admin_role environ in
  let dirty1 :=
    if bool_decide (row_get admin "email" ≠ VText email)
    then [("email", VText email)] else [] in
  let dirty2 :=
    if bool_decide (row_get admin "role" ≠ VText role)
    then dirty1 ++ [("role", VText role)] else dirty1 in
  match admin_recovery_key_hash environ with
  | Some recovery_key_hash =>
      if bool_decide (row_get admin "recovery_key_hash" ≠ VText recovery_key_hash)
      then dirty2 ++ [("recovery_key_hash", VText recovery_key_hash)] else dirty2
  | None => dirty2
  end.

(** Lines 122-146: what the session flushes at [session.commit()], given
    the result of the lookup: an INSERT of the new object, or an UPDATE
    of the attributes that were assigned, or nothing. *)
Definition reconcile_admin (environ : gmap string string) (utcnow : Z)
    (admin : option (nat * gmap string value)) : M unit :=
  match admin with
  | None =>
      insert_user
        (User_new (admin_username environ) (admin_email environ)
                  (_hash_secret (admin_password environ))
                  (admin_recovery_key_hash environ) (admin_role environ) true utcnow)
  | Some (pos, row) =>
      match drifted environ row with
      | [] => mret ()
      | sets => update_user pos sets
      end
  end.

Definition seed_admin_user (environ : gmap string string) (utcnow : Z) : M unit :=
  init_db environ;;
  admin ← select_user_first (admin_username environ);
  reconcile_admin environ utcnow admin.



(** ** Vocabulary of the statements below *)

Definition deleted_at_column : column := Column "deleted_at" "DATETIME" false.

(** The table [migrate_user_table] leaves behind. *)
Definition with_deleted_at (t : table) : table :=
  if bool_decide ("deleted_at" ∈ column_names t) then t
  else Table (tbl_columns t ++ [deleted_at_column]) (tbl_rows t).

(** The table the whole schema step leaves behind. *)
Definition ensured (environ : gmap string string) (u : option table) : table :=
  match u with
  | None => Table User_columns []
  | Some t => if is_sqlite environ then with_deleted_at t else t
  end.

(** The statements the schema step sends on a reachable database. *)
Definition ensure_log (environ : gmap string string) (u : option table) : list stmt :=
  match u with None => [CreateTable User_columns] | Some _ => [] end
  ++ (if is_sqlite environ then
        [SelectSqliteMaster; PragmaTableInfo]
        ++ match u with
           | Some t => if bool_decide ("deleted_at" ∈ column_names t) then []
                       else [AlterAddColumn deleted_at_column]
           | None => []
           end
      else []).

(** The row [seed_admin_user] inserts. *)
Definition new_admin (environ : gmap string string) (utcnow : Z) : gmap string value :=
  User_new (admin_username environ) (admin_email environ)
           (_hash_secret (admin_password environ))
           (admin_recovery_key_hash environ) (admin_role environ) true utcnow.

(** The lookup of line 120 on the rows of a table. *)
Definition find_admin (environ : gmap string string) (rows : list (gmap string value))
  : option (nat * gmap string value) :=
  list_find (has_username (VText (admin_username environ))) rows.

Definition is_alter (s : stmt) : bool :=
  match s with AlterAddColumn _ => true | _ => false end.
Definition is_insert (s : stmt) : bool :=
  match s with InsertUser _ => true | _ => false end.
Definition is_update (s : stmt) : bool :=
  match s with UpdateUser _ _ => true | _ => false end.


(** A database on which the bootstrap has nothing left to do: the table
    is there, SQLite tables carry [deleted_at], and when the table has
    every column of the model the admin row is found with no attribute
    differing from the configuration. *)
Definition settled (environ : gmap string string) (d : db) : Prop :=
  db_reachable d = true →
  ∃ t, db_user d = Some t
     ∧ (is_sqlite environ = true → "deleted_at" ∈ column_names t)
     ∧ (User_column_names ⊆ column_names t →
        ∃ pos row, find_admin environ (tbl_rows t) = Some (pos, row)
                 ∧ drifted environ row = []).

(** The columns the record step may assign on a row it found. *)
Definition reconciled_columns : list string := ["email"; "role"; "recovery_key_hash"].

(** A table as kept by a run: its column definitions are still there, in
    place, and every row is still at its position, equal to what it was
    outside the reconciled columns. *)
Definition table_kept (t t' : table) : Prop :=
  tbl_columns t `prefix_of` tbl_columns t'
  ∧ ∀ i r, tbl_rows t !! i = Some r →
      ∃ r', tbl_rows t' !! i = Some r'
          ∧ ∀ c, c ∉ reconciled_columns → r' !! c = r !! c.

(** A statement that writes column [c] of a stored row. *)
Definition sets_column (c : string) (s : stmt) : Prop :=
  match s with
  | UpdateUser _ sets => c ∈ sets.*1
  | _ => False
  end.

(** ** Sample databases *)


Definition stored_guest : gmap string value :=
  list_to_map
    [ ("id", VInt 1); ("username", VText "guest"); ("email", VText "guest@example.com");
      ("password_hash", VText (_hash_secret "guest-pw")); ("recovery_key_hash", VNull);
      ("role", VText "viewer"); ("is_active", VBool true); ("created_at", VDateTime 90) ].

Definition stored_admin : gmap string value :=
  list_to_map
    [ ("id", VInt 2); ("username", VText "admin"); ("email", VText "old@example.com");
      ("password_hash", VText (_hash_secret "first-pw"));
      ("recovery_key_hash", VText (_hash_secret "first-recovery"));
      ("role", VText "admin"); ("is_active", VBool true); ("created_at", VDateTime 100);
      ("nickname", VText "root") ].

(** The release before [deleted_at] was added. *)
Definition previous_table : table :=
  Table (take 8 User_columns) [stored_guest; stored_admin].

(** The current model, with one column this release does not know. *)
Definition current_table : table :=
  Table (User_columns ++ [Column "nickname" "VARCHAR" false]) [stored_guest; stored_admin].


(** ** Vocabulary of the further properties *)

(** The rows that carry the configured admin username. *)
Definition admin_rows (environ : gmap string string) (u : option table)
  : list (gmap string value) :=
  filter (has_username (VText (admin_username environ))) (from_option tbl_rows [] u).



(** ** The test-plan generator ([src/Apps/test-plan/src/main.py])

    The plan is taken in the shape [terraform show -json] writes it: an
    object whose [resource_changes], when present, is a list of objects
    whose [type] and [name], when present, are strings and whose [change],
    when present, is an object whose [actions], when present, is a list
    of strings.  A key that may be missing is an [option]. *)

Record change_body := ChangeBody { actions : option (list string) }.

Record resource_change := ResourceChange {
  rc_type : option string;
  rc_name : option string;
  rc_change : option change_body
}.




(** [sub in s] on strings. *)
Fixpoint contains (sub s : string) : bool :=
  match s with
  | EmptyString => String.prefix sub s
  | String _ s' => String.prefix sub s || contains sub s'
  end.

(** [sep.join(items)]. *)
Fixpoint join (sep : string) (items : list string) : string :=
  match items with
  | [] => ""
  | [x] => x
  | x :: rest => x +:+ sep +:+ join sep rest
  end.





Fixpoint zeros (k : nat) : string :=
  match k with
  | O => ""
  | S k' => String "0" (zeros k')
  end.

(** [str(n)] for a natural number. *)
Definition str_of_nat (n : nat) : string := NilEmpty.string_of_uint (Nat.to_uint n).

(** [f"{n:03d}"]: the decimal digits, padded with zeros on the left to
    three characters. *)
Definition format_03d (n : nat) : string :=
  let digits := str_of_nat n in
  zeros (3 - String.length digits) +:+ digits.

(** Lines 47-54: the if/elif chain on the joined actions. *)
Definition expected_result (resource_type resource_name actions_ : string) : string :=
  if contains "create" actions_ then
    "Resource `" +:+ resource_type +:+ "." +:+ resource_name
      +:+ "` should be created and configured correctly."
  else if contains "update" actions_ then
    "Resource `" +:+ resource_type +:+ "." +:+ resource_name
      +:+ "` should be updated successfully."
  else if contains "delete" actions_ then
    "Resource `" +:+ resource_type +:+ "." +:+ resource_name +:+ "` should be deleted."
  else "No changes should be applied to this resource.".

(** [change.get('change', {}).get('actions', ['no-op'])]. *)
Definition change_actions (change : resource_change) : list string :=
  match rc_change change with
  | Some body => default ["no-op"] (actions body)
  | None => ["no-op"]
  end.








(** [int(s)] on a string of decimal digits. *)
Definition decimal_value (s : string) : option nat :=
  Nat.of_uint <$> NilEmpty.uint_of_string s.

(** The action names Terraform writes in a plan. *)
Definition terraform_actions : list string := ["no-op"; "create"; "read"; "update"; "delete"].
Example hash_abc :
  _hash_secret "abc" = "ba7816bf8f01cfea414140de5dae2223b00361a396177a9cb410ff61f20015ad"%string.
Proof. vm_compute. reflexivity. Qed.

Example hash_empty :
  _hash_secret "" = "e3b0c44298fc1c149afbf4c8996fb92427ae41e4649b934ca495991b7852b855"%string.
Proof. vm_compute. reflexivity. Qed.

Example hash_two_blocks :
  _hash_secret "abcdbcdecdefdefgefghfghighijhijkijkljklmklmnlmnomnopnopq"
  = "248d6a61d20638b8e5c026930c3e6039a33ce45964ff2167f6ecedd419db06c1"%string.
Proof. vm_compute. reflexivity. Qed.


(** * Properties *)

(** ** Running the monad *)

Lemma bind_run {A B} (m : M A) (f : A → M B) (d : db) :
  (m ≫= f) d =
  match m d with
  | Run (Return a) d1 l1 => Run (outcome_of (f a d1)) (db_of (f a d1)) (l1 ++ issued (f a d1))
  | Run (Raise e) d1 l1 => Run (Raise e) d1 l1
  end.
Proof.
  unfold mbind, M_bind. destruct (m d) as [[a|e] d1 l1]; [|done].
  by destruct (f a d1).
Qed.

(** ** The schema step *)

Lemma table_info_names (cols : list column) :
  (λ row : nat * string * string * bool, row.1.1.2)
    <$> imap (λ i c, (i, col_name c, col_type c, col_notnull c)) cols
  = col_name <$> cols.
Proof. rewrite fmap_imap. apply imap_const. Qed.

Lemma migrate_absent :
  migrate_user_table (Db true None) = Run (Return ()) (Db true None) [SelectSqliteMaster].
Proof. done. Qed.

Lemma migrate_present (t : table) :
  migrate_user_table (Db true (Some t)) =
  Run (Return ()) (Db true (Some (with_deleted_at t)))
      ([SelectSqliteMaster; PragmaTableInfo]
       ++ if bool_decide ("deleted_at" ∈ column_names t) then []
          else [AlterAddColumn deleted_at_column]).
Proof.
  unfold migrate_user_table. rewrite bind_run. cbn.
  rewrite bind_run. cbn. rewrite table_info_names.
  unfold with_deleted_at.
  destruct (decide ("deleted_at" ∈ column_names t)) as [Hin|Hin].
  - rewrite (bool_decide_eq_true_2 _ Hin).
    rewrite bool_decide_eq_false_2 by (rewrite elem_of_list_to_set; tauto).
    destruct t; done.
  - rewrite (bool_decide_eq_false_2 _ Hin).
    rewrite bool_decide_eq_true_2 by (by rewrite elem_of_list_to_set).
    rewrite bind_run. unfold alter_add_column, execute, on_user. cbn.
    by rewrite (bool_decide_eq_false_2 _ Hin).
Qed.

Lemma ensure_unreachable environ (u : option table) :
  ensure_user_table_schema environ (Db false u) = Run (Raise unable_to_open) (Db false u) [].
Proof. done. Qed.

Lemma ensure_reachable environ (u : option table) :
  ensure_user_table_schema environ (Db true u)
  = Run (Return ()) (Db true (Some (ensured environ u))) (ensure_log environ u).
Proof.
  unfold ensure_user_table_schema, ensured, ensure_log. rewrite bind_run.
  destruct u as [t|]; cbn; destruct (is_sqlite environ); cbn;
    rewrite ?migrate_present; done.
Qed.

(** ** The record step *)

Lemma select_user_run environ (t : table) :
  select_user_first (admin_username environ) (Db true (Some t)) =
  Run (if bool_decide (User_column_names ⊆ column_names t)
       then Return (find_admin environ (tbl_rows t)) else Raise no_such_column)
      (Db true (Some t)) [SelectUser (admin_username environ)].
Proof.
  unfold select_user_first, execute, on_user. cbn.
  destruct t; cbn. by case_bool_decide.
Qed.

Lemma new_admin_username environ utcnow :
  row_get (new_admin environ utcnow) "username" = VText (admin_username environ).
Proof. done. Qed.

Lemma reconcile_insert environ utcnow (t : table) :
  User_column_names ⊆ column_names t →
  find_admin environ (tbl_rows t) = None →
  reconcile_admin environ utcnow None (Db true (Some t)) =
  Run (Return ())
      (Db true (Some (Table (tbl_columns t)
         (tbl_rows t ++ [<["id" := VInt (next_id (tbl_rows t))]> (new_admin environ utcnow)]))))
      [InsertUser (new_admin environ utcnow)].
Proof.
  intros Hcols Hnone. unfold reconcile_admin. fold (new_admin environ utcnow).
  unfold insert_user, execute, on_user.
  cbn [db_reachable db_user fst snd].
  rewrite (bool_decide_eq_true_2 _ Hcols).
  rewrite bool_decide_eq_false_2; [done|].
  rewrite new_admin_username. apply list_find_None in Hnone.
  rewrite Exists_exists. intros (r & Hr & HP).
  by eapply (proj1 (Forall_forall _ _) Hnone).
Qed.

Lemma reconcile_update environ utcnow pos row (t : table) :
  reconcile_admin environ utcnow (Some (pos, row)) (Db true (Some t)) =
  match drifted environ row with
  | [] => Run (Return ()) (Db true (Some t)) []
  | sets => Run (Return ())
              (Db true (Some (Table (tbl_columns t)
                 (alter (λ r, assign r sets) pos (tbl_rows t)))))
              [UpdateUser pos sets]
  end.
Proof. unfold reconcile_admin. by destruct (drifted environ row). Qed.

Lemma seed_unreachable environ utcnow (u : option table) :
  seed_admin_user environ utcnow (Db false u) = Run (Raise unable_to_open) (Db false u) [].
Proof. done. Qed.

Lemma seed_reachable environ utcnow (u : option table) :
  seed_admin_user environ utcnow (Db true u) =
  let t := ensured environ u in
  let pre := ensure_log environ u ++ [SelectUser (admin_username environ)] in
  if bool_decide (User_column_names ⊆ column_names t) then
    match find_admin environ (tbl_rows t) with
    | None =>
        Run (Return ())
            (Db true (Some (Table (tbl_columns t)
               (tbl_rows t ++ [<["id" := VInt (next_id (tbl_rows t))]> (new_admin environ utcnow)]))))
            (pre ++ [InsertUser (new_admin environ utcnow)])
    | Some (pos, row) =>
        match drifted environ row with
        | [] => Run (Return ()) (Db true (Some t)) pre
        | sets =>
            Run (Return ())
                (Db true (Some (Table (tbl_columns t)
                   (alter (λ r, assign r sets) pos (tbl_rows t)))))
                (pre ++ [UpdateUser pos sets])
        end
    end
  else Run (Raise no_such_column) (Db true (Some t)) pre.
Proof.
  unfold seed_admin_user, init_db. rewrite bind_run, ensure_reachable.
  rewrite bind_run, select_user_run.
  cbn [outcome_of db_of issued].
  case_bool_decide as Hcols; [|done].
  destruct (find_admin environ _) as [[pos row]|] eqn:Hfind.
  - rewrite reconcile_update. destruct (drifted environ row); cbn [outcome_of db_of issued].
    + by rewrite app_nil_r.
    + by rewrite <- app_assoc.
  - rewrite reconcile_insert by done. cbn [outcome_of db_of issued].
    by rewrite <- app_assoc.
Qed.

(** ** Attribute drift *)

Lemma row_get_insert (r : gmap string value) (k c : string) (v : value) :
  row_get (<[k := v]> r) c = if decide (k = c) then v else row_get r c.
Proof. unfold row_get. rewrite lookup_insert. by case_decide. Qed.

Lemma assign_snoc (r : gmap string value) sets c v :
  assign r (sets ++ [(c, v)]) = <[c := v]> (assign r sets).
Proof. unfold assign. by rewrite foldl_app. Qed.

(** What the row reads after the assignments of lines 134-142. *)
Lemma assign_drifted_get environ (row : gmap string value) (c : string) :
  row_get (assign row (drifted environ row)) c =
  if decide (c = "email") then VText (admin_email environ)
  else if decide (c = "role") then VText (admin_role environ)
  else if decide (c = "recovery_key_hash")
       then from_option VText (row_get row c) (admin_recovery_key_hash environ)
       else row_get row c.
Proof.
  unfold drifted.
  destruct (admin_recovery_key_hash environ) as [h|];
    repeat case_bool_decide;
    rewrite ?assign_snoc; cbn [assign foldl fst snd];
    rewrite ?row_get_insert;
    repeat case_decide; simplify_eq/=; try done;
    match goal with
    | H : ¬ (_ ≠ _) |- _ => by apply dec_stable in H
    end.
Qed.

Lemma drifted_assign environ (row : gmap string value) :
  drifted environ (assign row (drifted environ row)) = [].
Proof.
  unfold drifted at 1. rewrite !assign_drifted_get. cbn.
  rewrite !bool_decide_eq_false_2 by (intros H; by apply H).
  destruct (admin_recovery_key_hash environ); [|done].
  by rewrite bool_decide_eq_false_2 by (intros H; by apply H).
Qed.

Lemma drifted_new_admin environ utcnow (id : value) :
  drifted environ (<["id" := id]> (new_admin environ utcnow)) = [].
Proof.
  unfold drifted.
  assert (row_get (<["id" := id]> (new_admin environ utcnow)) "email"
          = VText (admin_email environ)) as -> by done.
  assert (row_get (<["id" := id]> (new_admin environ utcnow)) "role"
          = VText (admin_role environ)) as -> by done.
  rewrite !bool_decide_eq_false_2 by (intros H; by apply H).
  destruct (admin_recovery_key_hash environ) as [h|] eqn:Hh; [|done].
  assert (row_get (<["id" := id]> (new_admin environ utcnow)) "recovery_key_hash"
          = VText h) as ->.
  { unfold new_admin. rewrite Hh. done. }
  by rewrite bool_decide_eq_false_2 by (intros H; by apply H).
Qed.

(** ** Looking the admin row up *)

Lemma list_find_alter_same {A} (P : A → Prop) `{!∀ x, Decision (P x)}
    (f : A → A) (l : list A) (i : nat) (x : A) :
  list_find P l = Some (i, x) → P (f x) →
  list_find P (alter f i l) = Some (i, f x).
Proof.
  rewrite !list_find_Some. intros (Hi & _ & Hleast) HP. split_and!; [|done|].
  - by rewrite list_lookup_alter_eq, Hi.
  - intros j y Hj Hlt. rewrite list_lookup_alter_ne in Hj by lia. eauto.
Qed.

Lemma find_admin_inserted environ (rows : list (gmap string value)) utcnow :
  find_admin environ rows = None →
  find_admin environ
    (rows ++ [<["id" := VInt (next_id rows)]> (new_admin environ utcnow)])
  = Some (length rows, <["id" := VInt (next_id rows)]> (new_admin environ utcnow)).
Proof.
  intros Hnone. unfold find_admin in *. rewrite list_find_app_r by done.
  cbn. rewrite decide_True by done. done.
Qed.

Lemma find_admin_updated environ (rows : list (gmap string value)) pos row :
  find_admin environ rows = Some (pos, row) →
  find_admin environ (alter (λ r, assign r (drifted environ row)) pos rows)
  = Some (pos, assign row (drifted environ row)).
Proof.
  intros Hfind. unfold find_admin in *.
  apply (list_find_alter_same _ (λ r, assign r (drifted environ row))); [done|].
  unfold has_username. rewrite assign_drifted_get. cbn.
  by apply list_find_Some in Hfind as (_ & ? & _).
Qed.

(** ** Convergence of the bootstrap *)

Lemma with_deleted_at_has (t : table) : "deleted_at" ∈ column_names (with_deleted_at t).
Proof.
  unfold with_deleted_at. case_bool_decide; [done|].
  unfold column_names. cbn. rewrite fmap_app. set_solver.
Qed.


Lemma ensured_deleted_at environ (u : option table) :
  is_sqlite environ = true → "deleted_at" ∈ column_names (ensured environ u).
Proof.
  intros Hs. unfold ensured. rewrite Hs. destruct u as [t|].
  - apply with_deleted_at_has.
  - unfold column_names. cbn. set_solver.
Qed.

(** Whatever the starting database, a run leaves a settled one. *)
Lemma seed_settles environ utcnow (d : db) :
  settled environ (db_of (seed_admin_user environ utcnow d)).
Proof.
  destruct d as [[|] u]; [|by rewrite seed_unreachable].
  rewrite seed_reachable. cbv zeta.
  pose proof (ensured_deleted_at environ u) as Hdel.
  set (t := ensured environ u) in *.
  case_bool_decide as Hcols.
  - destruct (find_admin environ (tbl_rows t)) as [[pos row]|] eqn:Hfind.
    + destruct (drifted environ row) as [|s sets] eqn:Hdrift; cbn [db_of].
      * intros _. exists t. eauto 10.
      * intros _. eexists. split; [done|]. split; [done|]. intros _.
        exists pos, (assign row (drifted environ row)). cbn [tbl_rows].
        rewrite <- Hdrift. split; [by apply find_admin_updated|apply drifted_assign].
    + cbn [db_of]. intros _. eexists. split; [done|]. split; [done|]. intros _.
      eexists _, _. cbn [tbl_rows].
      split; [by apply find_admin_inserted|apply drifted_new_admin].
  - cbn [db_of]. intros _. exists t. split; [done|]. split; [done|]. by intros ?.
Qed.


(** ** Nothing is removed *)

Lemma table_kept_refl (t : table) : table_kept t t.
Proof. split; [done|]. eauto. Qed.

Lemma table_kept_trans (t1 t2 t3 : table) :
  table_kept t1 t2 → table_kept t2 t3 → table_kept t1 t3.
Proof.
  intros [Hc1 Hr1] [Hc2 Hr2]. split; [by etrans|].
  intros i r Hi. destruct (Hr1 i r Hi) as (r2 & Hi2 & Heq2).
  destruct (Hr2 i r2 Hi2) as (r3 & Hi3 & Heq3).
  exists r3. split; [done|]. intros c Hc. by rewrite Heq3, Heq2.
Qed.

Lemma with_deleted_at_kept (t : table) :
  tbl_columns t `prefix_of` tbl_columns (with_deleted_at t)
  ∧ tbl_rows (with_deleted_at t) = tbl_rows t.
Proof.
  unfold with_deleted_at. case_bool_decide; [done|].
  split; [|done]. by apply prefix_app_r.
Qed.

Lemma ensured_kept environ (t : table) :
  tbl_columns t `prefix_of` tbl_columns (ensured environ (Some t))
  ∧ tbl_rows (ensured environ (Some t)) = tbl_rows t.
Proof.
  unfold ensured. destruct (is_sqlite environ); [|done]. apply with_deleted_at_kept.
Qed.

Lemma drifted_columns environ (row : gmap string value) :
  (drifted environ row).*1 ⊆ reconciled_columns.
Proof.
  unfold drifted, reconciled_columns. intros c.
  destruct (admin_recovery_key_hash environ); repeat case_bool_decide;
    cbn; intros Hc;
    repeat (apply elem_of_cons in Hc as [->|Hc]);
    try (by apply elem_of_nil in Hc); repeat constructor.
Qed.

Lemma assign_lookup_other (r : gmap string value) sets (c : string) :
  c ∉ sets.*1 → assign r sets !! c = r !! c.
Proof.
  revert r. induction sets as [|[k v] sets IH]; intros r Hc; [done|].
  cbn in *. apply not_elem_of_cons in Hc as [Hk Hc].
  rewrite IH by done. by apply lookup_insert_ne.
Qed.

Lemma assign_drifted_other environ (r row : gmap string value) (c : string) :
  c ∉ reconciled_columns → assign r (drifted environ row) !! c = r !! c.
Proof.
  intros Hc. apply assign_lookup_other. intros Hin. apply Hc.
  by apply (drifted_columns environ row).
Qed.

(** The database a run leaves, relative to the table it started from. *)
Lemma seed_kept environ utcnow (b : bool) (t : table) :
  ∃ t', db_user (db_of (seed_admin_user environ utcnow (Db b (Some t)))) = Some t'
      ∧ table_kept t t'.
Proof.
  destruct b; [|rewrite seed_unreachable; eauto using table_kept_refl].
  rewrite seed_reachable. cbv zeta.
  destruct (ensured_kept environ t) as [Hcols Hrows].
  set (t1 := ensured environ (Some t)) in *.
  assert (table_kept t t1) as Ht1.
  { split; [done|]. rewrite Hrows. eauto. }
  case_bool_decide; [|eauto].
  destruct (find_admin environ (tbl_rows t1)) as [[pos row]|] eqn:Hfind.
  - destruct (drifted environ row) as [|s sets] eqn:Hdrift; [eauto|].
    eexists. split; [done|]. eapply table_kept_trans; [exact Ht1|].
    split; [done|]. cbn [tbl_rows]. intros i r Hi.
    destruct (decide (i = pos)) as [->|Hne].
    + eexists. split; [by rewrite list_lookup_alter_eq, Hi|].
      intros c Hc. rewrite <- Hdrift. by apply assign_drifted_other.
    + exists r. split; [by rewrite list_lookup_alter_ne|done].
  - eexists. split; [done|]. eapply table_kept_trans; [exact Ht1|].
    split; [done|]. cbn [tbl_rows]. intros i r Hi.
    exists r. split; [by apply lookup_app_l_Some|done].
Qed.

Lemma ensure_kept environ (b : bool) (t : table) :
  ∃ t', db_user (db_of (ensure_user_table_schema environ (Db b (Some t)))) = Some t'
      ∧ tbl_columns t `prefix_of` tbl_columns t'
      ∧ tbl_rows t' = tbl_rows t.
Proof.
  destruct b; [|rewrite ensure_unreachable; eauto].
  rewrite ensure_reachable. eexists. split; [done|]. apply ensured_kept.
Qed.

(** C4.  Non-destructive bootstrap: from any database that has a [user]
    table, (1) [ensure_user_table_schema] leaves a table whose column list
    starts with the old column definitions, unchanged and in place (so a
    live column unknown to the model is left as it is), and whose rows are
    the old rows; (2) [seed_admin_user] leaves a table that keeps every old
    column definition and every old row at its position, rows differing
    from before at most in [email], [role] and [recovery_key_hash];
    (3) the same holds for [ensure_user_table_schema] followed by
    [seed_admin_user].  This also holds for runs that raise. *)
Theorem bootstrap_non_destructive (environ : gmap string string) (utcnow : Z)
    (d : db) (t : table) :
  db_user d = Some t →
  (∃ t', db_user (db_of (ensure_user_table_schema environ d)) = Some t'
       ∧ tbl_columns t `prefix_of` tbl_columns t'
       ∧ tbl_rows t' = tbl_rows t)
  ∧ (∃ t', db_user (db_of (seed_admin_user environ utcnow d)) = Some t'
         ∧ table_kept t t'
         ∧ length (tbl_rows t) ≤ length (tbl_rows t'))%nat
  ∧ (∃ t', db_user (db_of ((ensure_user_table_schema environ;;
                            seed_admin_user environ utcnow) d)) = Some t'
         ∧ table_kept t t'
         ∧ length (tbl_rows t) ≤ length (tbl_rows t'))%nat.
Proof.
  intros Hu. destruct d as [b u]. cbn in Hu. subst u.
  assert (∀ t1 t2, table_kept t1 t2 → (length (tbl_rows t1) ≤ length (tbl_rows t2))%nat)
    as Hlen.
  { intros t1 t2 [_ Hrows]. destruct (decide (length (tbl_rows t1) = 0%nat)) as [->|Hne]; [lia|].
    destruct (lookup_lt_is_Some_2 (tbl_rows t1) (length (tbl_rows t1) - 1)) as [r Hr]; [lia|].
    destruct (Hrows _ _ Hr) as (r' & Hr' & _). apply lookup_lt_Some in Hr'. lia. }
  split_and!.
  - apply ensure_kept.
  - destruct (seed_kept environ utcnow b t) as (t' & ? & ?). eauto.
  - rewrite bind_run.
    destruct b; [|rewrite ensure_unreachable; eauto 10 using table_kept_refl].
    rewrite ensure_reachable. cbn [db_of].
    destruct (seed_kept environ utcnow true (ensured environ (Some t))) as (t' & Ht' & Hk).
    destruct (ensured_kept environ t) as [Hc Hr].
    assert (table_kept t t').
    { eapply table_kept_trans; [|exact Hk]. split; [done|]. rewrite Hr. eauto. }
    eauto.
Qed.

(** ** The record found by the lookup *)


Lemma ensure_log_rows_untouched environ (u : option table) :
  Forall (λ s, is_insert s = false ∧ is_update s = false) (ensure_log environ u).
Proof.
  unfold ensure_log.
  destruct u as [t|], (is_sqlite environ); cbn; try case_bool_decide;
    repeat constructor.
Qed.


(** A configuration that differs in [ADMIN_PASSWORD] only reads the same
    everywhere else. *)
Section OtherPassword.
Context (environ : gmap string string) (password : string).

Local Abbreviation environ' := (<["ADMIN_PASSWORD" := password]> environ).






End OtherPassword.

(** ** Idempotence and the fresh store *)





(** ** No recovery key configured *)

Lemma ensured_rows environ (u : option table) :
  tbl_rows (ensured environ u) = from_option tbl_rows [] u.
Proof. destruct u as [t|]; [apply ensured_kept|done]. Qed.

Lemma drifted_without_recovery environ (row : gmap string value) (c : string) :
  admin_recovery_key_hash environ = None →
  c ∈ (drifted environ row).*1 → c = "email" ∨ c = "role".
Proof.
  intros Hnone. unfold drifted. rewrite Hnone.
  repeat case_bool_decide; cbn; intros Hc;
    repeat (apply elem_of_cons in Hc as [->|Hc]); auto;
    by apply elem_of_nil in Hc.
Qed.

(** C10.  With [ADMIN_RECOVERY_KEY] unset, a run of [seed_admin_user]
    sends no statement that assigns [recovery_key_hash] on a stored row,
    and an INSERT it sends carries NULL in [recovery_key_hash]; every row
    the table had keeps the [recovery_key_hash] it had (none is cleared),
    and a row the run created has [recovery_key_hash] NULL. *)
Theorem recovery_key_unset (environ : gmap string string) (utcnow : Z) (d : db) :
  environ !! "ADMIN_RECOVERY_KEY" = None →
  let r := seed_admin_user environ utcnow d in
  let old := from_option tbl_rows [] (db_user d) in
  Forall (λ s, ¬ sets_column "recovery_key_hash" s
               ∧ ∀ new, s = InsertUser new → new !! "recovery_key_hash" = Some VNull)
         (issued r)
  ∧ ∀ t', db_user (db_of r) = Some t' →
      (∀ i row, old !! i = Some row →
         ∃ row', tbl_rows t' !! i = Some row'
               ∧ row' !! "recovery_key_hash" = row !! "recovery_key_hash")
      ∧ (∀ i row', tbl_rows t' !! i = Some row' → (length old ≤ i)%nat →
           row' !! "recovery_key_hash" = Some VNull).
Proof.
  intros Hunset r old.
  assert (admin_recovery_key_hash environ = None) as Hnone.
  { unfold admin_recovery_key_hash, admin_recovery_key. by rewrite Hunset. }
  assert (∀ v, new_admin environ utcnow !! "recovery_key_hash" = Some VNull
             ∧ (<["id" := v]> (new_admin environ utcnow)) !! "recovery_key_hash" = Some VNull)
    as Hnew.
  { intros v. unfold new_admin. rewrite Hnone. done. }
  assert (∀ row, "recovery_key_hash" ∉ (drifted environ row).*1) as Hsets.
  { intros row Hin. by destruct (drifted_without_recovery environ row _ Hnone Hin). }
  assert (∀ rows : list (gmap string value),
            (∀ i row, rows !! i = Some row →
               ∃ row', rows !! i = Some row'
                     ∧ row' !! "recovery_key_hash" = row !! "recovery_key_hash")
            ∧ (∀ i row', rows !! i = Some row' → (length rows ≤ i)%nat →
                 row' !! "recovery_key_hash" = Some VNull)) as Hsame.
  { intros rows. split; [eauto|]. intros i row' Hi Hge.
    apply lookup_lt_Some in Hi. lia. }
  subst r old. destruct d as [[|] u]; cbn [db_user];
    [|rewrite seed_unreachable; cbn; split; [done|]; by intros t' ->].
  rewrite seed_reachable. cbv zeta.
  pose proof (ensured_rows environ u) as Hrows.
  set (t1 := ensured environ u) in *. set (old := from_option tbl_rows [] u) in *.
  assert (Forall (λ s, ¬ sets_column "recovery_key_hash" s
               ∧ ∀ new, s = InsertUser new → new !! "recovery_key_hash" = Some VNull)
            (ensure_log environ u ++ [SelectUser (admin_username environ)])) as Hpre.
  { apply Forall_app. split.
    - eapply Forall_impl; [apply ensure_log_rows_untouched|].
      intros s [? ?]. destruct s; cbn in *; try done; split; (by intros [] || done).
    - repeat constructor; [by intros []|done]. }
  case_bool_decide;
    [|cbn; split; [done|]; intros t' [= <-]; rewrite Hrows; apply Hsame].
  destruct (find_admin environ (tbl_rows t1)) as [[pos row]|] eqn:Hfind.
  - assert (tbl_rows t1 !! pos = Some row) as Hpos
      by (by apply list_find_Some in Hfind as (? & _)).
    destruct (drifted environ row) as [|s sets] eqn:Hdrift;
      [cbn; split; [done|]; intros t' [= <-]; rewrite Hrows; apply Hsame|].
    cbn [issued db_of db_user]. split.
    + apply Forall_app. split; [done|]. repeat constructor; [|done].
      unfold sets_column. rewrite <- Hdrift. apply Hsets.
    + intros t' [= <-]. cbn [tbl_rows]. rewrite Hrows in *. split.
      * intros i r0 Hi. destruct (decide (i = pos)) as [->|Hne].
        -- exists (assign row (s :: sets)).
           rewrite list_lookup_alter_eq, Hpos. split; [done|].
           assert (r0 = row) as -> by congruence.
           apply assign_lookup_other. rewrite <- Hdrift. apply Hsets.
        -- exists r0. by rewrite list_lookup_alter_ne.
      * intros i row' Hi Hge. apply lookup_lt_Some in Hi.
        rewrite length_alter in Hi. lia.
  - cbn [issued db_of db_user]. split.
    + apply Forall_app. split; [done|]. repeat constructor; [by intros []|].
      intros new [= <-]. apply (Hnew VNull).
    + intros t' [= <-]. cbn [tbl_rows]. rewrite Hrows in *. split.
      * intros i r0 Hi. exists r0. split; [by apply lookup_app_l_Some|done].
      * intros i row' Hi Hge. rewrite lookup_app_r in Hi by done.
        apply list_lookup_singleton_Some in Hi as [_ <-]. apply Hnew.
Qed.

(** ** Absent table, unreachable store *)

(** C8.  On a reachable database with no [user] table the catalogue
    query returns the empty result (no name, no column) and raises
    nothing; the inspection block of [ensure_user_table_schema] returns
    normally there, leaves the database as it is and sends no ALTER; and
    [ensure_user_table_schema] as a whole returns normally, having created
    the table with the columns of the model and sent no ALTER.  When the
    database cannot be reached, the failure of the driver surfaces: both
    raise [OperationalError] and nothing is sent. *)
Theorem absent_table_is_not_an_error (environ : gmap string string) :
  select_sqlite_master (Db true None) = Run (Return None) (Db true None) [SelectSqliteMaster]
  ∧ pragma_table_info (Db true None) = Run (Return []) (Db true None) [PragmaTableInfo]
  ∧ migrate_user_table (Db true None) = Run (Return ()) (Db true None) [SelectSqliteMaster]
  ∧ (∃ log, ensure_user_table_schema environ (Db true None)
            = Run (Return ()) (Db true (Some (Table User_columns []))) log
          ∧ Forall (λ s, is_alter s = false) log)
  ∧ ∀ u, migrate_user_table (Db false u) = Run (Raise unable_to_open) (Db false u) []
       ∧ ensure_user_table_schema environ (Db false u)
         = Run (Raise unable_to_open) (Db false u) [].
Proof.
  split_and!; try done.
  rewrite ensure_reachable. eexists. split; [done|].
  unfold ensure_log. destruct (is_sqlite environ); by repeat constructor.
Qed.

(** ** The digest *)

(** C9.  [_hash_secret] is a function of its argument alone: equal
    plaintexts give equal digests, and the digest stored for a new admin
    is the same under any two configurations and clocks that agree on the
    password, whatever else they hold. *)
Theorem hash_secret_deterministic (v1 v2 : string) :
  v1 = v2 →
  _hash_secret v1 = _hash_secret v2
  ∧ ∀ (environ1 environ2 : gmap string string) (utcnow1 utcnow2 : Z),
      admin_password environ1 = v1 → admin_password environ2 = v2 →
      new_admin environ1 utcnow1 !! "password_hash"
      = new_admin environ2 utcnow2 !! "password_hash".
Proof.
  intros ->. split; [done|].
  intros environ1 environ2 utcnow1 utcnow2 H1 H2.
  assert (∀ environ utcnow, new_admin environ utcnow !! "password_hash"
                            = Some (VText (_hash_secret (admin_password environ)))) as Hrow
    by done.
  by rewrite !Hrow, H1, H2.
Qed.

(** ** A uniqueness violation on insert *)





(** ** The schema migration *)


(** ** The theorems at concrete inputs *)

Lemma bootstrap_non_destructive_witness :
  db_user (Db true (Some current_table)) = Some current_table
  ∧ ∃ t', db_user (db_of (seed_admin_user {["ADMIN_EMAIL" := "ops@example.com"]} 500
                            (Db true (Some current_table)))) = Some t'
        ∧ table_kept current_table t'.
Proof.
  split; [reflexivity|].
  destruct (bootstrap_non_destructive {["ADMIN_EMAIL" := "ops@example.com"]} 500
              (Db true (Some current_table)) current_table eq_refl)
    as (_ & (t' & Hdb & Hkept & _) & _).
  exists t'. split; [exact Hdb|exact Hkept].
Defined.



Lemma recovery_key_unset_witness :
  (∅ : gmap string string) !! "ADMIN_RECOVERY_KEY" = None
  ∧ ∀ t', db_user (db_of (seed_admin_user ∅ 500 (Db true (Some current_table)))) = Some t' →
      ∃ row', tbl_rows t' !! 1%nat = Some row'
            ∧ row' !! "recovery_key_hash" = Some (VText (_hash_secret "first-recovery")).
Proof.
  assert ((∅ : gmap string string) !! "ADMIN_RECOVERY_KEY" = None) as Hunset
    by reflexivity.
  split; [exact Hunset|]. intros t' Ht'.
  destruct (recovery_key_unset ∅ 500 (Db true (Some current_table)) Hunset)
    as (_ & Hrows).
  destruct (Hrows t' Ht') as (Hold & _).
  destruct (Hold 1%nat stored_admin eq_refl) as (row' & Hrow & Hrec).
  exists row'. split; [exact Hrow|]. rewrite Hrec. reflexivity.
Defined.

Lemma hash_secret_deterministic_witness :
  _hash_secret "ChangeM3!" = _hash_secret "ChangeM3!"
  ∧ _hash_secret "ChangeM3!"
    = "5041e72698bfe0b2ad58402eec3ddd2fcc8f20662c29447bc254d7cadd73534e".
Proof.
  split.
  - exact (proj1 (hash_secret_deterministic "ChangeM3!" "ChangeM3!" eq_refl)).
  - vm_compute. reflexivity.
Defined.





(** * Further properties of the module *)

(** ** The schema step on its own *)




(** ** When the bootstrap succeeds *)


Lemma seed_outcome_reachable environ utcnow (u : option table) :
  outcome_of (seed_admin_user environ utcnow (Db true u))
  = if bool_decide (User_column_names ⊆ column_names (ensured environ u))
    then Return () else Raise no_such_column.
Proof.
  rewrite seed_reachable. cbv zeta. case_bool_decide; [|done].
  destruct (find_admin _ _) as [[pos row]|]; [|done]. by destruct (drifted _ _).
Qed.



Lemma drifted_nil environ (row : gmap string value) :
  drifted environ row = [] →
  row_get row "email" = VText (admin_email environ)
  ∧ row_get row "role" = VText (admin_role environ)
  ∧ ∀ h, admin_recovery_key_hash environ = Some h →
      row_get row "recovery_key_hash" = VText h.
Proof.
  intros Hnil.
  pose proof (assign_drifted_get environ row) as Hget. rewrite Hnil in Hget.
  cbn [assign foldl] in Hget. split_and!.
  - by rewrite (Hget "email").
  - by rewrite (Hget "role").
  - intros h Hh. rewrite (Hget "recovery_key_hash"), Hh. done.
Qed.

(** X4.  What a successful start-up guarantees: when [seed_admin_user]
    returns normally, the table has every column of the model and the
    lookup by the configured username finds a row whose [email] and [role]
    are the configured ones and whose [recovery_key_hash] is the digest of
    the configured recovery key whenever a non-empty one is configured. *)
Theorem seeded_admin_matches_configuration (environ : gmap string string) (utcnow : Z)
    (d : db) :
  let r := seed_admin_user environ utcnow d in
  outcome_of r = Return () →
  ∃ t pos row,
    db_user (db_of r) = Some t
    ∧ User_column_names ⊆ column_names t
    ∧ find_admin environ (tbl_rows t) = Some (pos, row)
    ∧ row_get row "username" = VText (admin_username environ)
    ∧ row_get row "email" = VText (admin_email environ)
    ∧ row_get row "role" = VText (admin_role environ)
    ∧ ∀ key, admin_recovery_key environ = Some key → key ≠ "" →
        row_get row "recovery_key_hash" = VText (_hash_secret key).
Proof.
  intros r Hok. subst r.
  destruct d as [[|] u]; [|by rewrite seed_unreachable in Hok].
  rewrite seed_outcome_reachable in Hok.
  case_bool_decide as Hcols; [clear Hok|done].
  pose proof (seed_settles environ utcnow (Db true u)) as Hs.
  assert (∃ t, db_user (db_of (seed_admin_user environ utcnow (Db true u))) = Some t
             ∧ tbl_columns t = tbl_columns (ensured environ u)) as (t & Ht & Hsame).
  { rewrite seed_reachable. cbv zeta. rewrite bool_decide_eq_true_2 by done.
    destruct (find_admin _ _) as [[pos row]|]; [|by eexists].
    destruct (drifted _ _); by eexists. }
  assert (db_reachable (db_of (seed_admin_user environ utcnow (Db true u))) = true) as Hr.
  { rewrite seed_reachable. cbv zeta. rewrite bool_decide_eq_true_2 by done.
    destruct (find_admin _ _) as [[pos row]|]; [|done]. by destruct (drifted _ _). }
  destruct (Hs Hr) as (t' & Ht' & _ & Hrow). rewrite Ht in Ht'. injection Ht' as <-.
  assert (User_column_names ⊆ column_names t) as Hcols'
    by (unfold column_names; by rewrite Hsame).
  destruct (Hrow Hcols') as (pos & row & Hfind & Hdrift).
  destruct (drifted_nil environ row Hdrift) as (Hemail & Hrole & Hrec).
  exists t, pos, row. split_and!; [done..| |done|done|].
  - by apply list_find_Some in Hfind as (_ & ? & _).
  - intros key Hkey Hne. apply Hrec. unfold admin_recovery_key_hash. rewrite Hkey.
    by destruct key.
Qed.

(** ** One admin, one write *)

Lemma filter_alter_same {A} (P : A → Prop) `{!∀ x, Decision (P x)}
    (f : A → A) (l : list A) (i : nat) :
  (∀ x, P (f x) ↔ P x) →
  length (filter P (alter f i l)) = length (filter P l).
Proof.
  intros Hf. revert i. induction l as [|x l IH]; intros i; [done|].
  destruct i as [|i].
  - change (alter f 0%nat (x :: l)) with (f x :: l).
    rewrite !filter_cons. destruct (decide (P x)) as [Hx|Hx].
    + by rewrite decide_True by (by apply Hf).
    + by rewrite decide_False by (by rewrite Hf).
  - change (alter f (S i) (x :: l)) with (x :: alter f i l).
    rewrite !filter_cons. destruct (decide (P x)); cbn; by rewrite IH.
Qed.

Lemma assign_drifted_has_username environ (row r : gmap string value) (u : value) :
  has_username u (assign r (drifted environ row)) ↔ has_username u r.
Proof.
  unfold has_username, row_get. rewrite assign_drifted_other; [done|].
  unfold reconciled_columns. intros H.
  repeat (apply elem_of_cons in H as [H|H]; [done|]).
  by apply elem_of_nil in H.
Qed.

Lemma find_admin_none_filter environ (rows : list (gmap string value)) :
  find_admin environ rows = None →
  filter (has_username (VText (admin_username environ))) rows = [].
Proof.
  intros Hnone%list_find_None. induction Hnone as [|x l Hx _ IH]; [done|].
  by rewrite filter_cons, decide_False.
Qed.

Lemma find_admin_some_filter environ (rows : list (gmap string value)) pos row :
  find_admin environ rows = Some (pos, row) →
  (1 ≤ length (filter (has_username (VText (admin_username environ))) rows))%nat.
Proof.
  intros (Hpos & HP & _)%list_find_Some.
  assert (row ∈ filter (has_username (VText (admin_username environ))) rows) as Hin.
  { apply list_elem_of_filter. split; [done|]. by eapply list_elem_of_lookup_2. }
  destruct (filter _ rows); [by apply elem_of_nil in Hin|cbn; lia].
Qed.

(** X5.  The admin is created once.  Counting the rows that carry the
    configured username: a run that returns normally leaves one such row
    when there was none (the INSERT) and as many as before otherwise (it
    never inserts a second one); a run that raises leaves the count as it
    was. *)
Theorem admin_created_once (environ : gmap string string) (utcnow : Z) (d : db) :
  let r := seed_admin_user environ utcnow d in
  let before := length (admin_rows environ (db_user d)) in
  let after := length (admin_rows environ (db_user (db_of r))) in
  (outcome_of r = Return () → after = Nat.max 1 before)
  ∧ (outcome_of r ≠ Return () → after = before).
Proof.
  intros r before after. subst r before after. unfold admin_rows.
  destruct d as [[|] u]; [|by rewrite seed_unreachable].
  rewrite seed_outcome_reachable, seed_reachable. cbv zeta.
  pose proof (ensured_rows environ u) as Hrows. cbn [db_user].
  case_bool_decide as Hcols; cbn [db_of db_user from_option];
    [|split; [done|]; intros _; by rewrite Hrows].
  split; [intros _|done].
  destruct (find_admin environ (tbl_rows (ensured environ u))) as [[pos row]|] eqn:Hfind.
  - pose proof (find_admin_some_filter _ _ _ _ Hfind) as Hone. rewrite Hrows in Hone.
    destruct (drifted environ row) as [|s sets] eqn:Hdrift; cbn [db_of db_user from_option].
    + rewrite Hrows. lia.
    + cbn [tbl_rows]. rewrite <- Hdrift, filter_alter_same, Hrows; [lia|].
      intros x. apply assign_drifted_has_username.
  - cbn [db_of db_user from_option tbl_rows].
    pose proof (find_admin_none_filter _ _ Hfind) as Hnil.
    rewrite filter_app, Hnil. rewrite Hrows in Hnil. rewrite Hnil.
    rewrite filter_cons, decide_True by done. done.
Qed.




(** ** What the run reads from the environment *)

(** The run depends on the environment through six settings only. *)
Lemma seed_configuration (environ1 environ2 : gmap string string) utcnow (d : db) :
  is_sqlite environ1 = is_sqlite environ2 →
  admin_username environ1 = admin_username environ2 →
  admin_email environ1 = admin_email environ2 →
  admin_password environ1 = admin_password environ2 →
  admin_role environ1 = admin_role environ2 →
  admin_recovery_key_hash environ1 = admin_recovery_key_hash environ2 →
  seed_admin_user environ1 utcnow d = seed_admin_user environ2 utcnow d.
Proof.
  intros Hs Hu He Hp Hr Hk.
  unfold seed_admin_user, init_db, ensure_user_table_schema, reconcile_admin, drifted.
  by rewrite Hs, Hu, He, Hp, Hr, Hk.
Qed.

(** X6.  An empty [ADMIN_RECOVERY_KEY] is an unset one: the run with the
    variable set to the empty string is, statement for statement, the run
    with the variable removed.  In particular it stores NULL for a new
    admin and leaves a stored recovery digest alone; it does not store the
    digest of the empty string. *)
Theorem empty_recovery_key_is_unset (environ : gmap string string) (utcnow : Z) (d : db) :
  seed_admin_user (<["ADMIN_RECOVERY_KEY" := ""]> environ) utcnow d
  = seed_admin_user (delete "ADMIN_RECOVERY_KEY" environ) utcnow d.
Proof.
  apply seed_configuration;
    unfold is_sqlite, DATABASE_URL, admin_username, admin_email, admin_password,
      admin_role, admin_recovery_key_hash, admin_recovery_key, getenv;
    rewrite ?lookup_insert_eq, ?lookup_delete_eq,
      ?lookup_insert_ne, ?lookup_delete_ne by done; done.
Qed.

(** ** The update path in general *)


(** ** The shape of a digest *)






(** * The test-plan generator *)

(** ** Rows and their numbering *)




(** ** Test case identifiers *)

Lemma string_length_append (s1 s2 : string) :
  String.length (s1 +:+ s2) = (String.length s1 + String.length s2)%nat.
Proof. induction s1 as [|c s1 IH]; simpl; [done|by f_equal]. Qed.

Lemma zeros_length (k : nat) : String.length (zeros k) = k.
Proof. induction k as [|k IH]; simpl; [done|by f_equal]. Qed.

Lemma decimal_value_zeros (k : nat) (s : string) :
  decimal_value (zeros k +:+ s) = decimal_value s.
Proof.
  unfold decimal_value. induction k as [|k IH]; [done|].
  change (zeros (S k) +:+ s) with (String "0" (zeros k +:+ s)).
  simpl NilEmpty.uint_of_string.
  destruct (NilEmpty.uint_of_string (zeros k +:+ s)) as [d|];
    destruct (NilEmpty.uint_of_string s) as [d'|]; done.
Qed.

(** X11.  Test case identifiers read back as their number: the text
    [f"{n:03d}"] puts in a row is at least three characters long (it is
    never cut, whatever the number of rows), its decimal value is [n], and
    so two rows never receive the same identifier. *)
Theorem test_case_id_round_trip (n : nat) :
  decimal_value (format_03d n) = Some n
  ∧ (3 ≤ String.length (format_03d n))%nat
  ∧ ∀ m, format_03d n = format_03d m → n = m.
Proof.
  assert (∀ k, decimal_value (format_03d k) = Some k) as Hvalue.
  { intros k. unfold format_03d. cbv zeta. rewrite decimal_value_zeros.
    unfold decimal_value, str_of_nat. rewrite NilEmpty.usu. cbn.
    by rewrite DecimalNat.Unsigned.of_to. }
  split_and!; [done| |].
  - unfold format_03d. cbv zeta. rewrite string_length_append, zeros_length. lia.
  - intros m Heq. pose proof (Hvalue n) as Hn. rewrite Heq, Hvalue in Hn. congruence.
Qed.

(** ** The expected result of a change *)

Lemma bool_decide_elem_cons (x y : string) (l : list string) :
  bool_decide (x ∈ y :: l) = bool_decide (x = y) || bool_decide (x ∈ l).
Proof. rewrite <- bool_decide_or. apply bool_decide_ext, elem_of_cons. Qed.

(** On Terraform's action names, the substring test on the joined string
    is membership in the list. *)
Lemma contains_join_actions (sub : string) (acts : list string) :
  sub ∈ ["create"; "update"; "delete"] →
  Forall (λ a, a ∈ terraform_actions) acts →
  contains sub (join "/" acts) = bool_decide (sub ∈ acts).
Proof.
  intros Hsub Hacts. induction Hacts as [|w l Hw Hl IH].
  - rewrite bool_decide_eq_false_2 by apply not_elem_of_nil.
    repeat (apply elem_of_cons in Hsub as [->|Hsub]); [done..|].
    by apply elem_of_nil in Hsub.
  - rewrite bool_decide_elem_cons. destruct l as [|w' l'].
    + rewrite (bool_decide_eq_false_2 (sub ∈ [])) by apply not_elem_of_nil.
      unfold terraform_actions in Hw.
      repeat (apply elem_of_cons in Hsub as [->|Hsub]);
        try (by apply elem_of_nil in Hsub);
        repeat (apply elem_of_cons in Hw as [->|Hw]);
        try (by apply elem_of_nil in Hw);
        first [rewrite (bool_decide_eq_true_2 _ eq_refl)
              |rewrite bool_decide_eq_false_2 by done]; reflexivity.
    + change (join "/" (w :: w' :: l')) with (w +:+ "/" +:+ join "/" (w' :: l')).
      rewrite <- IH. generalize (join "/" (w' :: l')). intros J.
      unfold terraform_actions in Hw.
      repeat (apply elem_of_cons in Hsub as [->|Hsub]);
        try (by apply elem_of_nil in Hsub);
        repeat (apply elem_of_cons in Hw as [->|Hw]);
        try (by apply elem_of_nil in Hw);
        first [rewrite (bool_decide_eq_true_2 _ eq_refl)
              |rewrite bool_decide_eq_false_2 by done]; reflexivity.
Qed.

(** X12.  How a change is classified.  For a change whose actions are
    among the names Terraform writes ([no-op], [create], [read], [update],
    [delete]): the row says "created" exactly when [create] is one of the
    actions, also when [delete] is another (a replacement is reported as a
    creation); otherwise "updated" when [update] is one; otherwise
    "deleted" when [delete] is one; otherwise, and for a change that has
    no [change] or no [actions] key, "no changes". *)
Theorem expected_result_by_actions (resource_type resource_name : string)
    (acts : list string) :
  Forall (λ a, a ∈ terraform_actions) acts →
  expected_result resource_type resource_name (join "/" acts)
  = (if bool_decide ("create" ∈ acts) then
       "Resource `" +:+ resource_type +:+ "." +:+ resource_name
         +:+ "` should be created and configured correctly."
     else if bool_decide ("update" ∈ acts) then
       "Resource `" +:+ resource_type +:+ "." +:+ resource_name
         +:+ "` should be updated successfully."
     else if bool_decide ("delete" ∈ acts) then
       "Resource `" +:+ resource_type +:+ "." +:+ resource_name +:+ "` should be deleted."
     else "No changes should be applied to this resource.")
  ∧ ∀ change,
      (rc_change change = None ∨ rc_change change = Some (ChangeBody None)) →
      expected_result resource_type resource_name (join "/" (change_actions change))
      = "No changes should be applied to this resource.".
Proof.
  intros Hacts. split.
  - unfold expected_result.
    rewrite !contains_join_actions by first [exact Hacts | repeat constructor].
    done.
  - intros change [Hc|Hc]; unfold change_actions; by rewrite Hc.
Qed.

Lemma expected_result_by_actions_witness :
  Forall (λ a, a ∈ terraform_actions) ["delete"; "create"]
  ∧ expected_result "azurerm_resource_group" "main" (join "/" ["delete"; "create"])
    = "Resource `azurerm_resource_group.main` should be created and configured correctly.".
Proof.
  assert (Forall (λ a, a ∈ terraform_actions) ["delete"; "create"]) as Hacts
    by (repeat constructor).
  split; [exact Hacts|].
  destruct (expected_result_by_actions "azurerm_resource_group" "main"
              ["delete"; "create"] Hacts) as [Hrow _].
  rewrite Hrow. vm_compute. reflexivity.
Defined.

(** ** The further theorems at concrete inputs *)


Lemma seeded_admin_matches_configuration_witness :
  let environ : gmap string string := {["ADMIN_EMAIL" := "ops@example.com"]} in
  let r := seed_admin_user environ 500 (Db true (Some previous_table)) in
  outcome_of r = Return ()
  ∧ ∃ t pos row, db_user (db_of r) = Some t
               ∧ find_admin environ (tbl_rows t) = Some (pos, row)
               ∧ row_get row "email" = VText "ops@example.com".
Proof.
  intros environ r.
  assert (outcome_of r = Return ()) as Hok by (vm_compute; reflexivity).
  split; [exact Hok|].
  destruct (seeded_admin_matches_configuration environ 500
              (Db true (Some previous_table)) Hok)
    as (t & pos & row & Hdb & _ & Hfind & _ & Hemail & _).
  exists t, pos, row. split; [exact Hdb|]. split; [exact Hfind|exact Hemail].
Defined.

